(** * CLI::Timer (include/CLI/Timer.hpp): a verified model

    The header defines a stopwatch class [Timer] with two built-in print
    functions ([Simple], [Big]), a duration formatter ([make_time_str]), a
    calibration loop ([time_it]), [to_string] and a stream inserter.

    The model is a shallow embedding:
    - [double] values are IEEE 754 binary64 numbers, taken from the Standard
      Library's executable specification [SpecFloat] (no axioms);
    - the C library conversion [snprintf(buffer, 50, "%.5g", x)] is modelled by
      an executable function following ISO C 7.21.6.1;
    - the clock, the timed operation and the object's mutable field [start_]
      live in an explicit machine state threaded through a small
      state-and-exception monad, with a ghost trace of the events performed. *)

From Stdlib Require Import ZArith NArith List String Ascii Bool Lia.
From Stdlib Require Import Floats.SpecFloat.
From Stdlib Require Import DecimalString.
From Equations Require Import Equations.
From Equations.Prop Require Import Logic.
Import ListNotations.

Local Open Scope string_scope.
Local Open Scope Z_scope.

(** ** IEEE 754 binary64 *)

Module Double.

Definition prec : Z := 53.
Definition emax : Z := 1024.

Definition double := spec_float.

(** Conversion of an integer to [double] (exact below 2^53, as for all the
    integer literals of the header and for every value of the loop counter). *)
Definition of_Z (z : Z) : double := binary_normalize prec emax z 0 false.

Definition mul : double -> double -> double := SFmul prec emax.
Definition div : double -> double -> double := SFdiv prec emax.
Definition ltb : double -> double -> bool := SFltb.
Definition leb : double -> double -> bool := SFleb.

(** A value that a C++ [double] can hold. *)
Definition valid (x : double) : bool := valid_binary prec emax x.

(** A finite value whose significand and exponent are within the binary64
    limits (every valid double is, and so is every rounded result). *)
Definition in_range (x : double) : Prop :=
  match x with
  | S754_finite _ m e => Z.pos m <= 2 ^ 53 /\ -1074 <= e <= 971
  | _ => True
  end.

(** Decimal literals denote the binary64 number nearest to their real value;
    [1 / 10^k] correctly rounded is that number. *)
Definition lit_000001 : double := div (of_Z 1) (of_Z 1000000).   (* .000001 *)
Definition lit_001 : double := div (of_Z 1) (of_Z 1000).         (* .001 *)
Definition lit_1 : double := of_Z 1.                             (* 1 *)
Definition lit_1000 : double := of_Z 1000.                       (* 1000 *)
Definition lit_1000000 : double := of_Z 1000000.                 (* 1000000 *)
Definition lit_1000000000 : double := of_Z 1000000000.           (* 1000000000 *)
Definition lit_2_5 : double := div (of_Z 5) (of_Z 2).            (* 2.5 *)

End Double.
Import Double.

(** ** The C library's [%.<P>g] conversion *)

Module Printf.

Definition digit_char (d : Z) : ascii := ascii_of_nat (48 + Z.to_nat d).

(** The [p] low decimal digits of [n], most significant first. *)
Fixpoint digits (p : nat) (n : Z) : string :=
  match p with
  | O => ""
  | S k => digits k (n / 10) ++ String (digit_char (n mod 10)) ""
  end.

Fixpoint zeros (k : nat) : string :=
  match k with
  | O => ""
  | S k' => String "0" (zeros k')
  end.

(** Removal of the trailing zeros of a fractional portion. *)
Fixpoint strip_zeros (s : string) : string :=
  match s with
  | "" => ""
  | String c r =>
      let r' := strip_zeros r in
      if (Ascii.eqb c "0" && String.eqb r' "")%bool then "" else String c r'
  end.

(** The fractional portion with its decimal point, or nothing when no
    fractional digit remains. *)
Definition fraction (frac : string) : string :=
  let f := strip_zeros frac in
  if String.eqb f "" then "" else "." ++ f.

Definition decimal (n : Z) : string :=
  NilZero.string_of_uint (N.to_uint (Z.to_N n)).

(** The decimal exponent of the positive rational [num / den]:
    [10^X <= num / den < 10^(X+1)]. *)
Fixpoint dec_exp (fuel : nat) (num den : Z) : Z :=
  match fuel with
  | O => 0
  | S k =>
      if 10 * den <=? num then dec_exp k num (10 * den) + 1
      else if num <? den then dec_exp k (10 * num) den - 1
      else 0
  end.

Definition dec_exp_fuel (num den : Z) : nat :=
  Z.to_nat (Z.log2 num + Z.log2 den + 2).

(** [num / den] rounded to the nearest integer, ties to even. *)
Definition round_half_even (num den : Z) : Z :=
  let q := num / den in
  let r := num mod den in
  match 2 * r ?= den with
  | Lt => q
  | Gt => q + 1
  | Eq => if Z.even q then q else q + 1
  end.

(** The [P]-digit significand [N] and the exponent [X] of the style-e
    conversion of [num / den]: the value rounds to [N * 10^(X - (P - 1))]. *)
Definition sci (P : nat) (num den : Z) : Z * Z :=
  let X := dec_exp (dec_exp_fuel num den) num den in
  let s := X - (Z.of_nat P - 1) in
  let N := if 0 <=? s then round_half_even num (den * 10 ^ s)
           else round_half_even (num * 10 ^ (- s)) den in
  if 10 ^ Z.of_nat P <=? N then (N / 10, X + 1) else (N, X).

(** The exponent field: a sign and at least two digits. *)
Definition exponent (X : Z) : string :=
  (if X <? 0 then "-" else "+") ++
  (if Z.abs X <? 10 then "0" else "") ++ decimal (Z.abs X).

(** Style e with precision [P - 1], trailing zeros removed. *)
Definition style_e (P : nat) (N X : Z) : string :=
  let ds := digits P N in
  substring 0 1 ds ++ fraction (substring 1 (P - 1) ds) ++ "e" ++ exponent X.

(** Style f with precision [P - (X + 1)], trailing zeros removed. *)
Definition style_f (P : nat) (N X : Z) : string :=
  let ds := digits P N in
  if 0 <=? X then
    let i := Z.to_nat (X + 1) in
    substring 0 i ds ++ fraction (substring i (P - i) ds)
  else
    "0" ++ fraction (zeros (Z.to_nat (- X - 1)) ++ ds).

(** The magnitude [m * 2^e] converted with [P] significant digits. *)
Definition g_magnitude (P : nat) (m : positive) (e : Z) : string :=
  let num := if 0 <=? e then Z.pos m * 2 ^ e else Z.pos m in
  let den := if 0 <=? e then 1 else 2 ^ (- e) in
  let '(N, X) := sci P num den in
  if ((-4 <=? X) && (X <? Z.of_nat P))%bool then style_f P N X
  else style_e P N X.

(** [%.<P>g] for [P >= 1], without flags. *)
Definition format_g (P : nat) (x : double) : string :=
  match x with
  | S754_nan => "nan"
  | S754_infinity s => (if s then "-" else "") ++ "inf"
  | S754_zero s => (if s then "-" else "") ++ "0"
  | S754_finite s m e => (if s then "-" else "") ++ g_magnitude P m e
  end.

(** [snprintf(buffer, size, "%.<P>g", x)]: at most [size - 1] characters are
    stored before the terminating null character. *)
Definition snprintf_g (size : nat) (P : nat) (x : double) : string :=
  substring 0 (size - 1) (format_g P x).

End Printf.
Import Printf.

(** ** The duration formatter *)

(** The lambda [print_it] of [make_time_str(double)]. *)
Definition print_it (x : double) (unit : string) : string :=
  snprintf_g 50 5 x ++ " " ++ unit.

(** [Timer::make_time_str(double) const]; it reads no member of the object. *)
Definition make_time_str_double (time : double) : string :=
  if ltb time lit_000001 then print_it (mul time lit_1000000000) "ns"
  else if ltb time lit_001 then print_it (mul time lit_1000000) "us"
  else if ltb time lit_1 then print_it (mul time lit_1000) "ms"
  else print_it time "s".

(** ** The class [Timer] *)

(** [std::chrono::time_point<clock>]: a count of clock ticks since the epoch.
    Differences of time points are taken in [Z]: the tick counts of a run stay
    far from the limits of the clock's 64-bit representation, whose overflow
    is undefined in C++. *)
Definition time_point := Z.

(** [time_print_t], the type of a printing function; printing functions are
    taken to be pure. *)
Definition time_print_t := string -> string -> string.

Definition nl : string := String (ascii_of_nat 10) "".

(** [Timer::Simple] *)
Definition Simple (title time : string) : string :=
  (title ++ ": ") ++ time.

(** [Timer::Big] *)
Definition Big (title time : string) : string :=
  (((((("-----------------------------------------" ++ nl)
       ++ "| ") ++ title) ++ " | Time = ") ++ time) ++ nl)
  ++ "-----------------------------------------".

(** A run of [n] dashes. *)
Fixpoint dashes (n : nat) : string :=
  match n with
  | O => ""
  | S k => String "-" (dashes k)
  end.

(** The lines of a text: its maximal runs of characters other than newline. *)
Fixpoint lines (s : string) : list string :=
  match s with
  | "" => [""]
  | String c r =>
      if Ascii.eqb c (ascii_of_nat 10) then "" :: lines r
      else match lines r with
           | [] => [String c ""]
           | l :: ls => String c l :: ls
           end
  end.

Fixpoint no_newline (s : string) : bool :=
  match s with
  | "" => true
  | String c r => negb (Ascii.eqb c (ascii_of_nat 10)) && no_newline r
  end.

Record Timer := mkTimer {
  title_ : string;
  time_print_ : time_print_t;
  start_ : time_point
}.

(** [std::to_string(size_t)] *)
Definition to_string_size_t (n : Z) : string := decimal n.

(** [n++] on a 64-bit [size_t]. *)
Definition size_t_succ (n : Z) : Z := (n + 1) mod 2 ^ 64.

(** The number of times the test [n++ < 100] can still succeed. *)
Definition remaining (n : Z) : nat := Z.to_nat (100 - n).
Arguments remaining : simpl never.

(** The [adjustfield] part of a stream's format flags. *)
Inductive adjustfield := adjust_unset | adjust_left | adjust_right | adjust_internal.

(** A [std::ostream], observed through the characters written to it, together
    with the part of its state that the insertion of a string reads: the field
    width [os.width()], the fill character [os.fill()], the adjustment
    [os.flags() & adjustfield], and whether the stream is good. *)
Record ostream := mkOstream {
  written : string;
  width : Z;
  fill : ascii;
  adjust : adjustfield;
  good : bool
}.

Fixpoint fill_chars (c : ascii) (n : nat) : string :=
  match n with
  | O => ""
  | S k => String c (fill_chars c k)
  end.

(** The padding a formatted output function determines: a sequence shorter
    than [os.width()] is padded to that width with copies of [os.fill()],
    placed after the sequence when the adjustment is left and before it
    otherwise. *)
Definition pad (os : ostream) (seq : string) : string :=
  let fills := fill_chars (fill os)
                 (Z.to_nat (width os - Z.of_nat (String.length seq))) in
  match adjust os with
  | adjust_left => seq ++ fills
  | _ => fills ++ seq
  end.

(** [os << str] for a [std::string], a formatted output function: on a good
    stream the padded sequence is written and [os.width(0)] is called; on a
    stream that is not good nothing is written. *)
Definition insert_string (os : ostream) (str : string) : ostream :=
  if good os
  then mkOstream (written os ++ pad os str) 0 (fill os) (adjust os) true
  else os.

(** [os.put(c)], an unformatted output function: it ignores the field width. *)
Definition put (os : ostream) (c : ascii) : ostream :=
  if good os
  then mkOstream (written os ++ String c "") (width os) (fill os) (adjust os) true
  else os.

(** [os << std::endl]: [os.put('\n')], then a flush, which writes no character. *)
Definition endl (os : ostream) : ostream := put os (ascii_of_nat 10).

(** A stream as it is after construction: nothing written, width 0, fill
    character space, no adjustment set, good. *)
Definition fresh_ostream : ostream := mkOstream "" 0 " " adjust_unset true.

Inductive completion := Normal | Exceptional.

(** Ghost events: an invocation of the timed operation, a reading of the clock. *)
Inductive event := Invoke | Now (t : time_point).

Section Machine.

(** Everything outside the [Timer] object: the clock and whatever the timed
    operation acts on. *)
Variable World : Type.

(** [clock::now()] *)
Variable clock_now : World -> time_point * World.

(** [std::chrono::duration<double>(d).count()] for a clock duration of [d]
    ticks: the duration in seconds. *)
Variable seconds : Z -> double.

(** A [std::function<void()>]: it acts on the world, and returns or throws.
    The members of [Timer] are protected, so the operation does not write
    them. *)
Definition operation := World -> completion * World.

Record State := mkState {
  this : Timer;
  world : World;
  trace : list event
}.

Inductive result (A : Type) :=
| Return (a : A) (s : State)
| Throw (s : State).
Arguments Return {A} a s.
Arguments Throw {A} s.

(** The state an outcome leaves behind. *)
Definition final {A} (r : result A) : State :=
  match r with
  | Return _ s => s
  | Throw s => s
  end.

Definition M (A : Type) := State -> result A.

Definition ret {A} (a : A) : M A := fun s => Return a s.

Definition bind {A B} (m : M A) (k : A -> M B) : M B :=
  fun s => match m s with
           | Return a s' => k a s'
           | Throw s' => Throw s'
           end.

Notation "x <- m ;; k" := (bind m (fun x => k))
  (at level 61, m at next level, right associativity).
Notation "m ;; k" := (bind m (fun _ => k))
  (at level 61, right associativity).

Definition now : M time_point :=
  fun s => let '(t, w) := clock_now (world s) in
           Return t (mkState (this s) w (trace s ++ [Now t])).

Definition call (f : operation) : M unit :=
  fun s => match f (world s) with
           | (Normal, w) => Return tt (mkState (this s) w (trace s ++ [Invoke]))
           | (Exceptional, w) => Throw (mkState (this s) w (trace s ++ [Invoke]))
           end.

Definition get_this : M Timer := fun s => Return (this s) s.

Definition set_start_ (t : time_point) : M unit :=
  fun s => Return tt (mkState (mkTimer (title_ (this s)) (time_print_ (this s)) t)
                              (world s) (trace s)).

(** The constructor [Timer(title, time_print)]. *)
Definition Timer_new (title : string) (time_print : time_print_t) (w : World) : State :=
  let '(t, w') := clock_now w in
  mkState (mkTimer title time_print t) w' [Now t].

(** The body of the loop of [time_it]; its value is [total_time]. *)
Definition time_it_body (f : operation) : M double :=
  call f ;;
  t <- now ;;
  self <- get_this ;;
  ret (seconds (t - start_ self)).

(** [do { ... } while (n++ < 100 && total_time < target_time);]
    The value is the pair of [n] and [total_time] after the loop. *)
Equations? do_while (f : operation) (target_time : double) (n : Z) (s : State)
  : result (Z * double) by wf (remaining n) lt :=
  do_while f target_time n s with time_it_body f s := {
    | Throw s' => Throw s'
    | Return total_time s' with inspect ((n <? 100) && ltb total_time target_time)%bool := {
        | exist _ true continue => do_while f target_time (size_t_succ n) s'
        | exist _ false _ => Return (size_t_succ n, total_time) s' } }.
Proof.
  apply andb_prop in continue. destruct continue as [Hn _].
  apply Z.ltb_lt in Hn. unfold remaining, size_t_succ.
  assert (0 <= (n + 1) mod 2 ^ 64 < 2 ^ 64) by (apply Z.mod_pos_bound; lia).
  destruct (Z.lt_ge_cases n 0).
  - lia.
  - rewrite Z.mod_small by lia. lia.
Qed.

(** [Timer::time_it] *)
Definition time_it (f : operation) (target_time : double) : M string :=
  self <- get_this ;;
  let start := start_ self in
  t0 <- now ;;
  set_start_ t0 ;;
  r <- do_while f target_time 0 ;;
  let '(n, total_time) := r in
  let out := ((make_time_str_double (div total_time (of_Z n)) ++ " for ")
              ++ to_string_size_t n) ++ " tries" in
  set_start_ start ;;
  ret out.

(** [Timer::make_time_str() const] *)
Definition make_time_str : M string :=
  stop <- now ;;
  self <- get_this ;;
  ret (make_time_str_double (seconds (stop - start_ self))).

(** [Timer::to_string() const] *)
Definition to_string : M string :=
  time <- make_time_str ;;
  self <- get_this ;;
  ret (time_print_ self (title_ self) time).

(** [operator<<(std::ostream&, const CLI::Timer&)] *)
Definition insert_timer (os : ostream) : M ostream :=
  str <- to_string ;;
  ret (insert_string os str).

(** [AutoTimer::~AutoTimer()], writing to [std::cout]. *)
Definition AutoTimer_destroy (cout : ostream) : M ostream :=
  str <- to_string ;;
  ret (endl (insert_string cout str)).

End Machine.

Arguments this {World} s.
Arguments world {World} s.
Arguments trace {World} s.
Arguments mkState {World} this world trace.
Arguments Return {World A} a s.
Arguments Throw {World A} s.
Arguments final {World A} r.
Arguments ret {World A} a s.
Arguments bind {World A B} m k s.
Arguments call {World} f s.
Arguments get_this {World} s.
Arguments set_start_ {World} t s.
Arguments now {World} clock_now s.
Arguments Timer_new {World} clock_now title time_print w.
Arguments time_it_body {World} clock_now seconds f s.
Arguments do_while {World} clock_now seconds f target_time n s.
Arguments time_it {World} clock_now seconds f target_time s.
Arguments make_time_str {World} clock_now seconds s.
Arguments to_string {World} clock_now seconds s.
Arguments insert_timer {World} clock_now seconds os s.
Arguments AutoTimer_destroy {World} clock_now seconds cout s.

(** The number of invocations of the timed operation recorded in a trace. *)
Definition invocations (tr : list event) : nat :=
  List.length (filter (fun ev => match ev with Invoke => true | Now _ => false end) tr).

(** The events of [k] rounds of the calibration loop: in each, the operation is
    invoked and the clock is read. *)
Definition rounds (ts : list time_point) : list event :=
  flat_map (fun t => [Invoke; Now t]) ts.

(** What a run of the calibration loop, entered with counter [n] in state [s],
    leaves behind: on return, rounds at the times [ts ++ [t]], all but the last
    of them below the target; on an exception, the rounds completed before the
    invocation that threw. *)
Definition loop_post {World : Type} (seconds : Z -> double) (target_time : double)
    (n : Z) (s : State World) (r : result World (Z * double)) : Prop :=
  let elapsed t := seconds (t - start_ (this s)) in
  match r with
  | Return (n', total_time) s' =>
      exists ts t,
        trace s' = (trace s ++ rounds (ts ++ [t]))%list /\
        this s' = this s /\
        n' = n + Z.of_nat (List.length ts) + 1 /\
        n' <= 101 /\
        total_time = elapsed t /\
        Forall (fun t' => ltb (elapsed t') target_time = true) ts /\
        (n' = 101 \/ ltb total_time target_time = false)
  | Throw s' =>
      exists ts,
        trace s' = (trace s ++ rounds ts ++ [Invoke])%list /\
        this s' = this s /\
        n + Z.of_nat (List.length ts) <= 100 /\
        Forall (fun t' => ltb (elapsed t') target_time = true) ts
  end.

(** ** Concrete worlds *)

(** A clock whose period is [std::nano]: the count in seconds of a duration of
    [d] ticks is [d / 1e9]. *)
Definition nano_seconds (d : Z) : double := div (of_Z d) lit_1000000000.

(** A world that is just the clock's tick count; every reading advances the
    clock by [step] ticks. *)
Definition ticking (step : Z) (w : Z) : time_point * Z := (w, w + step).

(** An operation that does nothing and returns. *)
Definition noop {World : Type} : operation World := fun w => (Normal, w).

(** An operation that throws at once. *)
Definition failing {World : Type} : operation World := fun w => (Exceptional, w).

(** A timer titled "X" that prints with [Simple], started at tick 1000, in a
    world whose frozen clock stands 2.5 seconds later. *)
Definition timer_X_2_5 : State Z :=
  mkState (mkTimer "X" Simple 1000) 2500001000 [].

(** A stream after [os << std::setw(12)], and a stream that is not good. *)
Definition wide_ostream : ostream := mkOstream "" 12 " " adjust_unset true.
Definition failed_ostream : ostream := mkOstream "" 0 " " adjust_unset false.

(** ** Constructors with their default arguments *)

(** The constructor [AutoTimer(title, time_print)]: it only calls [Timer]'s. *)
Definition AutoTimer_new {World : Type} (clock_now : World -> time_point * World)
    (title : string) (time_print : time_print_t) (w : World) : State World :=
  Timer_new clock_now title time_print w.

(** [Timer()]: the title defaults to "Timer" and the print function to [Simple]. *)
Definition Timer_default {World : Type} (clock_now : World -> time_point * World)
    (w : World) : State World :=
  Timer_new clock_now "Timer" Simple w.

(** * Facts *)

(** ** Strings *)

Module StringFacts.

Lemma append_assoc (a b c : string) : ((a ++ b) ++ c = a ++ (b ++ c))%string.
Proof. induction a as [|ch a IH]; simpl; [reflexivity | now rewrite IH]. Qed.

Lemma length_append (a b : string) :
  String.length (a ++ b) = (String.length a + String.length b)%nat.
Proof. induction a as [|ch a IH]; simpl; [reflexivity | now rewrite IH]. Qed.

Lemma substring_length_le (s : string) : forall n m,
  (String.length (substring n m s) <= m)%nat.
Proof.
  induction s as [|ch s IH]; intros n m.
  - destruct n, m; simpl; lia.
  - destruct n as [|n]; simpl.
    + destruct m as [|m]; simpl; [lia|]. specialize (IH 0%nat m). lia.
    + apply IH.
Qed.

Lemma substring_whole (s : string) : forall m,
  (String.length s <= m)%nat -> substring 0 m s = s.
Proof.
  induction s as [|ch s IH]; intros m Hm.
  - destruct m; reflexivity.
  - destruct m as [|m]; simpl in *; [lia|]. rewrite IH by lia. reflexivity.
Qed.

End StringFacts.

(** ** The range of rounded results *)

Module DoubleFacts.

Lemma digits2_pos_bound (m : positive) : Z.pos m < 2 ^ Z.pos (digits2_pos m).
Proof.
  induction m as [m IH|m IH|]; simpl digits2_pos.
  - rewrite Pos2Z.inj_succ, Z.pow_succ_r by lia. lia.
  - rewrite Pos2Z.inj_succ, Z.pow_succ_r by lia. lia.
  - reflexivity.
Qed.

Lemma Zdigits2_bound (m : Z) : 0 <= m -> 0 <= Zdigits2 m /\ m < 2 ^ Zdigits2 m.
Proof.
  destruct m as [|p|p]; simpl; intros H; try lia.
  split; [lia | apply digits2_pos_bound].
Qed.

Lemma shr_1_half (r : shr_record) :
  0 <= shr_m r -> 0 <= shr_m (shr_1 r) /\ 2 * shr_m (shr_1 r) <= shr_m r.
Proof.
  destruct r as [m rb sb]; simpl. intros H.
  destruct m as [|[p|p|]|p]; simpl; lia.
Qed.

Lemma iter_shr_1 (p : positive) : forall r,
  0 <= shr_m r ->
  0 <= shr_m (iter_pos shr_1 p r) /\
  shr_m (iter_pos shr_1 p r) * 2 ^ Z.pos p <= shr_m r.
Proof.
  induction p as [p IH|p IH|]; intros r Hr; simpl iter_pos.
  - destruct (shr_1_half r Hr) as [H0 H1].
    destruct (IH _ H0) as [H2 H3]. destruct (IH _ H2) as [H4 H5].
    split; [assumption|].
    replace (Z.pos p~1) with (Z.pos p + Z.pos p + 1) by lia.
    rewrite !Z.pow_add_r, Z.pow_1_r by lia.
    assert (0 < 2 ^ Z.pos p) by (apply Z.pow_pos_nonneg; lia). nia.
  - destruct (IH _ Hr) as [H2 H3]. destruct (IH _ H2) as [H4 H5].
    split; [assumption|].
    replace (Z.pos p~0) with (Z.pos p + Z.pos p) by lia.
    rewrite Z.pow_add_r by lia.
    assert (0 < 2 ^ Z.pos p) by (apply Z.pow_pos_nonneg; lia). nia.
  - destruct (shr_1_half r Hr) as [H0 H1]. split; [assumption|].
    change (2 ^ 1) with 2. lia.
Qed.

Lemma shr_record_of_loc_m (m : Z) (l : location) : shr_m (shr_record_of_loc m l) = m.
Proof. destruct l as [|[]]; reflexivity. Qed.

(** One shift to the format's exponent: the significand does not grow, fits
    in 53 bits afterwards, and the exponent is at least [emin]. *)
Lemma shr_fexp_range (m e : Z) (l : location) :
  0 <= m ->
  0 <= shr_m (fst (shr_fexp prec emax m e l)) <= m /\
  shr_m (fst (shr_fexp prec emax m e l)) < 2 ^ 53 /\
  -1074 <= snd (shr_fexp prec emax m e l).
Proof.
  intros Hm. unfold shr_fexp, shr.
  destruct (Zdigits2_bound m Hm) as [Hd0 Hd].
  set (d := Zdigits2 m) in *.
  assert (Hf : fexp prec emax (d + e) = Z.max (d + e - 53) (-1074)) by reflexivity.
  destruct (fexp prec emax (d + e) - e) as [|p|p] eqn:Hn; simpl fst; simpl snd;
    rewrite ?shr_record_of_loc_m.
  - assert (d <= 53) by lia.
    assert (2 ^ d <= 2 ^ 53) by (apply Z.pow_le_mono_r; lia). lia.
  - destruct (iter_shr_1 p (shr_record_of_loc m l)) as [H0 H1];
      [rewrite shr_record_of_loc_m; assumption|].
    rewrite shr_record_of_loc_m in H1.
    set (m' := shr_m (iter_pos shr_1 p (shr_record_of_loc m l))) in *.
    assert (Hp : 0 < 2 ^ Z.pos p) by (apply Z.pow_pos_nonneg; lia).
    split; [nia|]. split; [|lia].
    destruct (Z.le_gt_cases d 53) as [Hle|Hgt].
    + assert (2 ^ d <= 2 ^ 53) by (apply Z.pow_le_mono_r; lia). nia.
    + assert (Hdp : d - 53 <= Z.pos p) by lia.
      assert (H2 : 2 ^ (d - 53) <= 2 ^ Z.pos p) by (apply Z.pow_le_mono_r; lia).
      assert (H3 : 2 ^ d = 2 ^ (d - 53) * 2 ^ 53).
      { rewrite <- Z.pow_add_r by lia. f_equal. lia. }
      assert (0 < 2 ^ (d - 53)) by (apply Z.pow_pos_nonneg; lia).
      apply Z.nle_gt. intros Hbig.
      assert (2 ^ 53 * 2 ^ Z.pos p <= m' * 2 ^ Z.pos p)
        by (apply Z.mul_le_mono_nonneg_r; lia).
      assert (2 ^ 53 * 2 ^ (d - 53) <= 2 ^ 53 * 2 ^ Z.pos p)
        by (apply Z.mul_le_mono_nonneg_l; lia).
      lia.
  - assert (d <= 53) by lia.
    assert (2 ^ d <= 2 ^ 53) by (apply Z.pow_le_mono_r; lia). lia.
Qed.

Lemma round_nearest_even_range (m : Z) (l : location) :
  m <= round_nearest_even m l <= m + 1.
Proof. destruct l as [|[]]; simpl; try destruct (Z.even m); lia. Qed.

(** Rounding to binary64 yields a value within the format's limits. *)
Lemma binary_round_aux_in_range (sx : bool) (mx ex : Z) (lx : location) :
  0 <= mx -> in_range (binary_round_aux prec emax sx mx ex lx).
Proof.
  intros Hmx. unfold binary_round_aux.
  pose proof (shr_fexp_range mx ex lx Hmx) as H1.
  destruct (shr_fexp prec emax mx ex lx) as [mrs' e'] eqn:E1. cbn [fst snd] in H1.
  pose proof (round_nearest_even_range (shr_m mrs') (loc_of_shr_record mrs')) as Hr.
  set (m1 := round_nearest_even (shr_m mrs') (loc_of_shr_record mrs')) in *.
  assert (Hm1 : 0 <= m1) by lia.
  pose proof (shr_fexp_range m1 e' loc_Exact Hm1) as H2.
  destruct (shr_fexp prec emax m1 e' loc_Exact) as [mrs'' e''] eqn:E2. cbn [fst snd] in H2.
  destruct (shr_m mrs'') as [|m|m] eqn:Em; cbn [in_range]; trivial.
  change (emax - prec) with 971.
  destruct (e'' <=? 971) eqn:Ee; cbn [in_range]; trivial.
  apply Z.leb_le in Ee. lia.
Qed.

Lemma mul_in_range (x y : double) : in_range (mul x y).
Proof.
  destruct x as [sx|sx| |sx mx ex], y as [sy|sy| |sy my ey]; simpl; trivial.
  apply binary_round_aux_in_range. lia.
Qed.

Lemma valid_in_range (x : double) : valid x = true -> in_range x.
Proof.
  destruct x as [s|s| |s m e]; simpl; trivial.
  unfold valid, valid_binary, bounded, canonical_mantissa. intros H.
  apply andb_prop in H. destruct H as [Hc He].
  apply Z.eqb_eq in Hc. apply Z.leb_le in He.
  change (emax - prec) with 971 in He.
  assert (Hf : fexp prec emax (Z.pos (digits2_pos m) + e)
               = Z.max (Z.pos (digits2_pos m) + e - 53) (-1074)) by reflexivity.
  pose proof (digits2_pos_bound m) as Hd.
  assert (Z.pos (digits2_pos m) <= 53) by lia.
  assert (2 ^ Z.pos (digits2_pos m) <= 2 ^ 53) by (apply Z.pow_le_mono_r; lia).
  lia.
Qed.

End DoubleFacts.

(** ** The conversion on sample values *)

Module PrintfExamples.

Example g_2_5 : format_g 5 lit_2_5 = "2.5".
Proof. vm_compute. reflexivity. Qed.

Example g_1e9 : format_g 5 lit_1000000000 = "1e+09".
Proof. vm_compute. reflexivity. Qed.

Example g_third : format_g 5 (div (of_Z 1) (of_Z 3)) = "0.33333".
Proof. vm_compute. reflexivity. Qed.

Example g_123456 : format_g 5 (of_Z 123456) = "1.2346e+05".
Proof. vm_compute. reflexivity. Qed.

Example g_small : format_g 5 (div (of_Z 123456) (of_Z 10000000000)) = "1.2346e-05".
Proof. vm_compute. reflexivity. Qed.

Example g_fixed_small : format_g 5 (div (of_Z 123456) (of_Z 1000000000)) = "0.00012346".
Proof. vm_compute. reflexivity. Qed.

(** A tie rounds to even, and a carry out of the last digit moves the exponent. *)
Example g_tie_even : format_g 5 (div (of_Z 200001) (of_Z 2)) = "1e+05".
Proof. vm_compute. reflexivity. Qed.

Example g_tie_carry : format_g 5 (div (of_Z 199999) (of_Z 2)) = "1e+05".
Proof. vm_compute. reflexivity. Qed.

Example g_tie_down : format_g 5 (div (of_Z 20001) (of_Z 2)) = "10000".
Proof. vm_compute. reflexivity. Qed.

(** The smallest subnormal and the largest finite double. *)
Example g_min : format_g 5 (S754_finite false 1 (-1074)) = "4.9407e-324".
Proof. vm_compute. reflexivity. Qed.

Example g_max : format_g 5 (S754_finite true 9007199254740991 971) = "-1.7977e+308".
Proof. vm_compute. reflexivity. Qed.

Example g_inf : format_g 5 (div (of_Z (-1)) (S754_zero false)) = "-inf".
Proof. vm_compute. reflexivity. Qed.

End PrintfExamples.

(** ** The length of a [%.5g] conversion *)

Module PrintfFacts.
Import StringFacts DoubleFacts.

Lemma digits_length (p : nat) : forall n, String.length (digits p n) = p.
Proof.
  induction p as [|p IH]; intros n; simpl; [reflexivity|].
  rewrite length_append, IH. simpl. lia.
Qed.

Lemma zeros_length (k : nat) : String.length (zeros k) = k.
Proof. induction k as [|k IH]; simpl; congruence. Qed.

Lemma strip_zeros_length (s : string) :
  (String.length (strip_zeros s) <= String.length s)%nat.
Proof.
  induction s as [|c s IH]; simpl; [lia|].
  destruct (Ascii.eqb c "0" && String.eqb (strip_zeros s) "")%bool; simpl; lia.
Qed.

Lemma fraction_length (s : string) :
  (String.length (fraction s) <= S (String.length s))%nat.
Proof.
  unfold fraction. pose proof (strip_zeros_length s).
  destruct (String.eqb (strip_zeros s) ""); simpl; lia.
Qed.

Lemma dec_exp_bound (fuel : nat) : forall num den,
  - Z.of_nat fuel <= dec_exp fuel num den <= Z.of_nat fuel.
Proof.
  induction fuel as [|k IH]; intros num den; cbn [dec_exp]; [lia|].
  destruct (10 * den <=? num).
  - specialize (IH num (10 * den)). lia.
  - destruct (num <? den); [specialize (IH (10 * num) den)|]; lia.
Qed.

Lemma sci_exponent_bound (P : nat) (num den : Z) :
  - Z.of_nat (dec_exp_fuel num den) <= snd (sci P num den)
    <= Z.of_nat (dec_exp_fuel num den) + 1.
Proof.
  unfold sci. pose proof (dec_exp_bound (dec_exp_fuel num den) num den).
  match goal with |- context [if ?c then _ else _] => destruct c end; simpl; lia.
Qed.

Lemma decimal_length (n : Z) :
  0 <= n < 2000 -> (String.length (decimal n) <= 4)%nat.
Proof.
  intros Hn.
  assert (Hall : forallb (fun k => String.length (decimal (Z.of_nat k)) <=? 4)%nat
                   (seq 0 2000) = true) by (vm_compute; reflexivity).
  rewrite forallb_forall in Hall.
  specialize (Hall (Z.to_nat n)). rewrite Z2Nat.id in Hall by lia.
  apply Nat.leb_le, Hall, in_seq. lia.
Qed.

Lemma exponent_length (X : Z) :
  -2000 < X < 2000 -> (String.length (exponent X) <= 6)%nat.
Proof.
  intros HX. unfold exponent. rewrite !length_append.
  pose proof (decimal_length (Z.abs X)) as Hd.
  destruct (X <? 0), (Z.abs X <? 10); simpl; lia.
Qed.

Lemma style_e_length (N X : Z) :
  -2000 < X < 2000 -> (String.length (style_e 5 N X) <= 13)%nat.
Proof.
  intros HX. unfold style_e. generalize (digits 5 N) as ds. intros ds.
  rewrite !length_append.
  pose proof (substring_length_le ds 0 1).
  pose proof (fraction_length (substring 1 (5 - 1) ds)).
  pose proof (substring_length_le ds 1 (5 - 1)).
  pose proof (exponent_length X HX).
  change (String.length "e") with 1%nat. lia.
Qed.

Lemma style_f_length (N X : Z) :
  -4 <= X < 5 -> (String.length (style_f 5 N X) <= 10)%nat.
Proof.
  intros HX. unfold style_f. pose proof (digits_length 5 N) as Hds.
  revert Hds. generalize (digits 5 N) as ds. intros ds Hds.
  destruct (0 <=? X) eqn:E.
  - apply Z.leb_le in E. rewrite length_append.
    pose proof (substring_length_le ds 0 (Z.to_nat (X + 1))).
    pose proof (fraction_length
                  (substring (Z.to_nat (X + 1)) (5 - Z.to_nat (X + 1)) ds)).
    pose proof (substring_length_le ds (Z.to_nat (X + 1)) (5 - Z.to_nat (X + 1))).
    lia.
  - apply Z.leb_gt in E. rewrite length_append.
    pose proof (fraction_length (zeros (Z.to_nat (- X - 1)) ++ ds)) as Hf.
    rewrite length_append, zeros_length, Hds in Hf.
    change (String.length "0") with 1%nat. lia.
Qed.

Lemma fuel_in_range (m : positive) (e : Z) :
  Z.pos m <= 2 ^ 53 -> -1074 <= e <= 971 ->
  Z.of_nat (dec_exp_fuel (if 0 <=? e then Z.pos m * 2 ^ e else Z.pos m)
                         (if 0 <=? e then 1 else 2 ^ (- e))) <= 1129.
Proof.
  intros Hm He. unfold dec_exp_fuel.
  assert (Hl : Z.log2 (Z.pos m) <= 53).
  { rewrite <- (Z.log2_pow2 53) by lia. apply Z.log2_le_mono. assumption. }
  pose proof (Z.log2_nonneg (Z.pos m)).
  destruct (0 <=? e) eqn:E.
  - apply Z.leb_le in E. rewrite Z.log2_mul_pow2 by lia.
    change (Z.log2 1) with 0. lia.
  - apply Z.leb_gt in E. rewrite Z.log2_pow2 by lia. lia.
Qed.

Lemma g_magnitude_length (m : positive) (e : Z) :
  Z.pos m <= 2 ^ 53 -> -1074 <= e <= 971 ->
  (String.length (g_magnitude 5 m e) <= 13)%nat.
Proof.
  intros Hm He. unfold g_magnitude.
  pose proof (fuel_in_range m e Hm He) as Hfuel.
  set (num := if 0 <=? e then Z.pos m * 2 ^ e else Z.pos m) in *.
  set (den := if 0 <=? e then 1 else 2 ^ (- e)) in *.
  pose proof (sci_exponent_bound 5 num den) as HX.
  destruct (sci 5 num den) as [N X]. simpl snd in HX.
  destruct ((-4 <=? X) && (X <? Z.of_nat 5))%bool eqn:Ef.
  - apply andb_prop in Ef. destruct Ef as [E1 E2].
    apply Z.leb_le in E1. apply Z.ltb_lt in E2.
    pose proof (style_f_length N X). lia.
  - apply style_e_length. lia.
Qed.

(** A conversion of a double takes at most 14 characters. *)
Lemma format_g_length (x : double) :
  in_range x -> (String.length (format_g 5 x) <= 14)%nat.
Proof.
  destruct x as [s|s| |s m e]; simpl in_range; intros H.
  - destruct s; simpl; lia.
  - destruct s; simpl; lia.
  - simpl; lia.
  - unfold format_g. rewrite length_append.
    pose proof (g_magnitude_length m e (proj1 H) (proj2 H)).
    destruct s; [change (String.length "-") with 1%nat
                | change (String.length "") with 0%nat]; lia.
Qed.

(** The 50-character buffer of [print_it] never truncates. *)
Lemma snprintf_g_exact (x : double) :
  in_range x -> snprintf_g 50 5 x = format_g 5 x.
Proof.
  intros H. unfold snprintf_g. apply substring_whole.
  pose proof (format_g_length x H). simpl. lia.
Qed.

End PrintfFacts.

(** ** The significand of a conversion *)

Module SciFacts.

Lemma dec_exp_nonneg (fuel : nat) : forall num den,
  den <= num -> 0 <= dec_exp fuel num den.
Proof.
  induction fuel as [|k IH]; intros num den H; cbn [dec_exp]; [lia|].
  destruct (10 * den <=? num) eqn:E1.
  - apply Z.leb_le in E1. specialize (IH num (10 * den) E1). lia.
  - destruct (num <? den) eqn:E2; [apply Z.ltb_lt in E2|]; lia.
Qed.

Lemma dec_exp_nonpos (fuel : nat) : forall num den,
  num < 10 * den -> dec_exp fuel num den <= 0.
Proof.
  induction fuel as [|k IH]; intros num den H; cbn [dec_exp]; [lia|].
  destruct (10 * den <=? num) eqn:E1.
  - apply Z.leb_le in E1. lia.
  - destruct (num <? den) eqn:E2; [|lia].
    apply Z.ltb_lt in E2. specialize (IH (10 * num) den ltac:(lia)). lia.
Qed.

(** With enough fuel, [dec_exp] is the decimal exponent: scaled by the power of
    ten it names, [num / den] lies in [[1, 10)]. *)
Lemma dec_exp_correct (fuel : nat) : forall num den,
  0 < num -> 0 < den ->
  num < 10 * den * 10 ^ Z.of_nat fuel -> den <= num * 10 ^ Z.of_nat fuel ->
  let X := dec_exp fuel num den in
  den * 10 ^ Z.max 0 X <= num * 10 ^ Z.max 0 (- X) < 10 * (den * 10 ^ Z.max 0 X).
Proof.
  induction fuel as [|k IH]; intros num den Hnum Hden Hup Hlo; cbn [dec_exp].
  - change (Z.of_nat 0) with 0 in *. cbn zeta. change (Z.max 0 0) with 0.
    change (Z.max 0 (- 0)) with 0. rewrite Z.pow_0_r in *. lia.
  - rewrite Nat2Z.inj_succ, Z.pow_succ_r in Hup, Hlo by lia.
    assert (Hp : 0 < 10 ^ Z.of_nat k) by (apply Z.pow_pos_nonneg; lia).
    destruct (10 * den <=? num) eqn:E1.
    + apply Z.leb_le in E1.
      pose proof (dec_exp_nonneg k num (10 * den) E1) as H0.
      specialize (IH num (10 * den) Hnum ltac:(lia) ltac:(lia) ltac:(nia)).
      cbn zeta in *. set (X := dec_exp k num (10 * den)) in *.
      rewrite (Z.max_r 0 (X + 1)), (Z.max_l 0 (- (X + 1))) by lia.
      rewrite (Z.max_r 0 X), (Z.max_l 0 (- X)) in IH by lia.
      rewrite Z.pow_add_r by lia. change (10 ^ 1) with 10. lia.
    + apply Z.leb_gt in E1. destruct (num <? den) eqn:E2.
      * apply Z.ltb_lt in E2.
        pose proof (dec_exp_nonpos k (10 * num) den ltac:(lia)) as H0.
        specialize (IH (10 * num) den ltac:(lia) Hden ltac:(nia) ltac:(lia)).
        cbn zeta in *. set (X := dec_exp k (10 * num) den) in *.
        rewrite (Z.max_l 0 (X - 1)), (Z.max_r 0 (- (X - 1))) by lia.
        rewrite (Z.max_l 0 X), (Z.max_r 0 (- X)) in IH by lia.
        replace (- (X - 1)) with (- X + 1) by lia.
        rewrite Z.pow_add_r by lia. change (10 ^ 1) with 10. lia.
      * apply Z.ltb_ge in E2. cbn zeta. change (Z.max 0 0) with 0.
        change (Z.max 0 (- 0)) with 0. rewrite Z.pow_0_r. lia.
Qed.

Lemma pow2_le_pow10 (a : Z) : 0 <= a -> 2 ^ a <= 10 ^ a.
Proof. intros H. apply Z.pow_le_mono_l. lia. Qed.

Lemma dec_exp_fuel_enough (num den : Z) :
  0 < num -> 0 < den ->
  num < 10 * den * 10 ^ Z.of_nat (dec_exp_fuel num den) /\
  den <= num * 10 ^ Z.of_nat (dec_exp_fuel num den).
Proof.
  intros Hnum Hden. unfold dec_exp_fuel.
  pose proof (Z.log2_nonneg num). pose proof (Z.log2_nonneg den).
  rewrite Z2Nat.id by lia.
  set (F := Z.log2 num + Z.log2 den + 2).
  assert (HF : 2 ^ F <= 10 ^ F) by (apply pow2_le_pow10; lia).
  assert (Hn : num < 2 ^ F).
  { apply Z.log2_lt_pow2; [assumption | lia]. }
  assert (Hd : den < 2 ^ F).
  { apply Z.log2_lt_pow2; [assumption | lia]. }
  split; nia.
Qed.

Lemma round_half_even_range (num den : Z) :
  num / den <= round_half_even num den <= num / den + 1.
Proof.
  unfold round_half_even.
  destruct (2 * (num mod den) ?= den); [destruct (Z.even (num / den))| |]; lia.
Qed.

(** The significand of a conversion to [P >= 1] digits has exactly [P]
    digits, so that [digits P] prints all of it. *)
Lemma sci_significand (P : nat) (num den : Z) :
  (1 <= P)%nat -> 0 < num -> 0 < den ->
  10 ^ (Z.of_nat P - 1) <= fst (sci P num den) < 10 ^ Z.of_nat P.
Proof.
  intros HP Hnum Hden. unfold sci.
  destruct (dec_exp_fuel_enough num den Hnum Hden) as [Hup Hlo].
  pose proof (dec_exp_correct _ num den Hnum Hden Hup Hlo) as HX. cbn zeta in HX.
  set (X := dec_exp (dec_exp_fuel num den) num den) in *.
  set (p := Z.of_nat P - 1). assert (Hp : 0 <= p) by (unfold p; lia).
  replace (Z.of_nat P) with (p + 1) by (unfold p; lia).
  assert (H10p : 0 < 10 ^ p) by (apply Z.pow_pos_nonneg; lia).
  assert (Hsucc : 10 ^ (p + 1) = 10 * 10 ^ p).
  { rewrite Z.pow_add_r by lia. change (10 ^ 1) with 10. lia. }
  assert (Hrange : exists A B, 0 < B /\ B * 10 ^ p <= A < B * 10 ^ (p + 1) /\
            (if 0 <=? X - p then round_half_even num (den * 10 ^ (X - p))
             else round_half_even (num * 10 ^ (- (X - p))) den)
            = round_half_even A B).
  { destruct (0 <=? X - p) eqn:Es.
    - apply Z.leb_le in Es. exists num, (den * 10 ^ (X - p)).
      assert (0 < 10 ^ (X - p)) by (apply Z.pow_pos_nonneg; lia).
      rewrite (Z.max_r 0 X), (Z.max_l 0 (- X)), Z.pow_0_r in HX by lia.
      assert (HXp : 10 ^ X = 10 ^ (X - p) * 10 ^ p).
      { rewrite <- Z.pow_add_r by lia. f_equal. lia. }
      rewrite HXp in HX. split; [nia|]. split; [|reflexivity]. rewrite Hsucc. nia.
    - apply Z.leb_gt in Es. exists (num * 10 ^ (- (X - p))), den.
      split; [assumption|]. split; [|reflexivity]. rewrite Hsucc.
      destruct (Z.le_gt_cases 0 X) as [HX0|HX0].
      + rewrite (Z.max_r 0 X), (Z.max_l 0 (- X)), Z.pow_0_r in HX by lia.
        assert (0 < 10 ^ (- (X - p))) by (apply Z.pow_pos_nonneg; lia).
        assert (0 < 10 ^ X) by (apply Z.pow_pos_nonneg; lia).
        assert (Hp' : 10 ^ p = 10 ^ X * 10 ^ (- (X - p))).
        { rewrite <- Z.pow_add_r by lia. f_equal. lia. }
        rewrite Hp'. nia.
      + rewrite (Z.max_l 0 X), (Z.max_r 0 (- X)), Z.pow_0_r in HX by lia.
        assert (0 < 10 ^ (- X)) by (apply Z.pow_pos_nonneg; lia).
        assert (Hs' : 10 ^ (- (X - p)) = 10 ^ (- X) * 10 ^ p).
        { rewrite <- Z.pow_add_r by lia. f_equal. lia. }
        rewrite Hs'. nia. }
  destruct Hrange as (A & B & HB & HAB & ->).
  pose proof (round_half_even_range A B) as Hr.
  assert (Hq1 : 10 ^ p <= A / B) by (apply Z.div_le_lower_bound; lia).
  assert (Hq2 : A / B < 10 ^ (p + 1)) by (apply Z.div_lt_upper_bound; lia).
  set (N := round_half_even A B) in *.
  destruct (10 ^ (p + 1) <=? N) eqn:EN; cbn [fst].
  - apply Z.leb_le in EN. assert (HN : N = 10 * 10 ^ p) by lia.
    rewrite HN, Z.mul_comm, Z.div_mul by lia. lia.
  - apply Z.leb_gt in EN. lia.
Qed.

End SciFacts.

(** ** Comparison of doubles *)

Module CompareFacts.

Lemma SFcompare_antisym (x y : double) :
  SFcompare y x = option_map CompOpp (SFcompare x y).
Proof.
  destruct x as [sx|sx| |sx mx ex], y as [sy|sy| |sy my ey]; simpl;
    try reflexivity;
    try (destruct sx; reflexivity); try (destruct sy; reflexivity);
    try (destruct sx, sy; reflexivity).
  destruct sx, sy; simpl; try reflexivity;
    rewrite (Z.compare_antisym ex ey); destruct (ex ?= ey); simpl; try reflexivity;
    rewrite (Pos.compare_cont_antisym mx my Eq); reflexivity.
Qed.

(** [a <= d] excludes [d < a]. *)
Lemma leb_not_ltb (a d : double) : leb a d = true -> ltb d a = false.
Proof.
  unfold leb, ltb, SFleb, SFltb. rewrite (SFcompare_antisym a d).
  destruct (SFcompare a d) as [[]|]; simpl; congruence.
Qed.

Lemma ltb_irrefl (d : double) : ltb d d = false.
Proof.
  unfold ltb, SFltb. pose proof (SFcompare_antisym d d) as H.
  destruct (SFcompare d d) as [[]|]; simpl in *; congruence.
Qed.

Lemma lit_000001_bits : lit_000001 = S754_finite false 4722366482869645 (-72).
Proof. vm_compute. reflexivity. Qed.

Lemma lit_001_bits : lit_001 = S754_finite false 4611686018427388 (-62).
Proof. vm_compute. reflexivity. Qed.

Lemma lit_1_bits : lit_1 = S754_finite false 4503599627370496 (-52).
Proof. vm_compute. reflexivity. Qed.

Lemma lit_2_5_bits : lit_2_5 = S754_finite false 5629499534213120 (-51).
Proof. vm_compute. reflexivity. Qed.

Lemma compare_cont_spec (p q : positive) :
  CompareSpec (p = q) (p < q)%positive (q < p)%positive (PosDef.Pos.compare_cont Eq p q).
Proof. exact (Pos.compare_spec p q). Qed.

Ltac order_cases eb ed ea mb md ma :=
  destruct (Z.compare_spec eb ed), (Z.compare_spec ed ea), (Z.compare_spec eb ea);
  simpl; try congruence; try lia;
  destruct (compare_cont_spec mb md), (compare_cont_spec md ma),
    (compare_cont_spec mb ma);
  simpl; try congruence; try lia.

(** [b <= d] and [d < a] give [b < a]. *)
Lemma leb_ltb_trans (b d a : double) :
  leb b d = true -> ltb d a = true -> ltb b a = true.
Proof.
  unfold leb, ltb, SFleb, SFltb.
  destruct b as [[]|[]| |[] mb eb], d as [[]|[]| |[] md ed],
           a as [[]|[]| |[] ma ea]; simpl; try congruence;
    order_cases eb ed ea mb md ma.
Qed.

(** Every negative double is below the first threshold. *)
Lemma negative_below_threshold (d : double) :
  ltb d (S754_zero false) = true -> ltb d lit_000001 = true.
Proof.
  rewrite lit_000001_bits.
  destruct d as [[]|[]| |[] m e]; intros H; try discriminate H; reflexivity.
Qed.

(** A duration at or above a threshold is not below a smaller threshold. *)
Lemma above_threshold (lo hi d : double) :
  ltb hi lo = false -> leb hi d = true -> ltb d lo = false.
Proof.
  intros Hlit Hle. destruct (ltb d lo) eqn:E; [|reflexivity].
  rewrite (leb_ltb_trans _ _ _ Hle E) in Hlit. discriminate.
Qed.

End CompareFacts.

(** ** The duration formatter *)

Import StringFacts DoubleFacts PrintfFacts CompareFacts.

Lemma print_it_exact (x : double) (unit : string) :
  in_range x -> print_it x unit = (format_g 5 x ++ " " ++ unit)%string.
Proof. intros H. unfold print_it. now rewrite snprintf_g_exact. Qed.

(** C1: a duration in [0, 1e-6) is rendered as [d * 1e9] with five significant
    digits and the unit ns; in [1e-6, 1e-3) as [d * 1e6] and us; in [1e-3, 1)
    as [d * 1e3] and ms; from 1 on as [d] itself and s. *)
Theorem make_time_str_double_units (d : double) :
  valid d = true ->
  (leb (S754_zero false) d = true -> ltb d lit_000001 = true ->
   make_time_str_double d = format_g 5 (mul d lit_1000000000) ++ " ns") /\
  (leb lit_000001 d = true -> ltb d lit_001 = true ->
   make_time_str_double d = format_g 5 (mul d lit_1000000) ++ " us") /\
  (leb lit_001 d = true -> ltb d lit_1 = true ->
   make_time_str_double d = format_g 5 (mul d lit_1000) ++ " ms") /\
  (leb lit_1 d = true ->
   make_time_str_double d = format_g 5 d ++ " s").
Proof.
  intros Hv. unfold make_time_str_double. repeat split.
  - intros _ H1. rewrite H1. apply print_it_exact, mul_in_range.
  - intros H1 H2. rewrite (leb_not_ltb _ _ H1), H2.
    apply print_it_exact, mul_in_range.
  - intros H1 H2.
    rewrite (above_threshold lit_000001 lit_001 d eq_refl H1).
    rewrite (leb_not_ltb _ _ H1), H2. apply print_it_exact, mul_in_range.
  - intros H1.
    rewrite (above_threshold lit_000001 lit_1 d eq_refl H1).
    rewrite (above_threshold lit_001 lit_1 d eq_refl H1).
    rewrite (leb_not_ltb _ _ H1).
    apply print_it_exact, valid_in_range, Hv.
Qed.

(** C2: at the exact boundaries the comparisons, being strict, select the
    larger unit: [1e-6] is rendered in us, [1e-3] in ms and [1] in s. *)
Theorem make_time_str_double_boundaries :
  (ltb lit_000001 lit_000001 = false /\
   make_time_str_double lit_000001 = print_it (mul lit_000001 lit_1000000) "us" /\
   make_time_str_double lit_000001 = "1 us") /\
  (ltb lit_001 lit_001 = false /\
   make_time_str_double lit_001 = print_it (mul lit_001 lit_1000) "ms" /\
   make_time_str_double lit_001 = "1 ms") /\
  (ltb lit_1 lit_1 = false /\
   make_time_str_double lit_1 = print_it lit_1 "s" /\
   make_time_str_double lit_1 = "1 s").
Proof. repeat split; vm_compute; reflexivity. Qed.

(** C10: the formatter yields a rendering for every double, and every duration
    below [1e-6], negative ones included, takes the nanoseconds branch: the
    result is [d * 1e9] with five significant digits followed by the unit ns. *)
Theorem make_time_str_double_below_threshold (d : double) :
  valid d = true ->
  (exists x unit, In unit ["ns"; "us"; "ms"; "s"] /\
     make_time_str_double d = format_g 5 x ++ " " ++ unit) /\
  (ltb d lit_000001 = true \/ ltb d (S754_zero false) = true ->
   make_time_str_double d = format_g 5 (mul d lit_1000000000) ++ " ns").
Proof.
  intros Hv. split.
  - unfold make_time_str_double.
    destruct (ltb d lit_000001); [|destruct (ltb d lit_001); [|destruct (ltb d lit_1)]].
    + exists (mul d lit_1000000000), "ns". split; [simpl; tauto|].
      apply print_it_exact, mul_in_range.
    + exists (mul d lit_1000000), "us". split; [simpl; tauto|].
      apply print_it_exact, mul_in_range.
    + exists (mul d lit_1000), "ms". split; [simpl; tauto|].
      apply print_it_exact, mul_in_range.
    + exists d, "s". split; [simpl; tauto|].
      apply print_it_exact, valid_in_range, Hv.
  - intros H.
    assert (Hlt : ltb d lit_000001 = true).
    { destruct H as [H|H]; [exact H | apply negative_below_threshold, H]. }
    unfold make_time_str_double. rewrite Hlt.
    apply print_it_exact, mul_in_range.
Qed.

(** ** Padding *)

Lemma append_empty_r (a : string) : a ++ "" = a.
Proof. induction a as [|c a IH]; cbn [append]; [reflexivity | now rewrite IH]. Qed.

Lemma fill_chars_length (c : ascii) (n : nat) : String.length (fill_chars c n) = n.
Proof. induction n as [|n IH]; cbn [fill_chars String.length]; congruence. Qed.

(** A sequence at least as long as the field width is not padded. *)
Lemma pad_no_width (os : ostream) (seq : string) :
  width os <= Z.of_nat (String.length seq) -> pad os seq = seq.
Proof.
  intros Hw. unfold pad.
  replace (Z.to_nat (width os - Z.of_nat (String.length seq))) with 0%nat by lia.
  cbn [fill_chars]. destruct (adjust os); cbn [append]; auto using append_empty_r.
Qed.

(** A padded sequence is as long as the larger of the width and its length. *)
Lemma pad_length (os : ostream) (seq : string) :
  Z.of_nat (String.length (pad os seq))
  = Z.max (width os) (Z.of_nat (String.length seq)).
Proof.
  unfold pad. destruct (adjust os);
    rewrite length_append, fill_chars_length; lia.
Qed.

(** ** The calibration loop *)

Section MachineFacts.

Context {World : Type}.
Variable clock_now : World -> time_point * World.
Variable seconds : Z -> double.

Lemma do_while_step (f : operation World) (target_time : double) (n : Z)
      (s : State World) :
  do_while clock_now seconds f target_time n s =
  match time_it_body clock_now seconds f s with
  | Throw s' => Throw s'
  | Return total_time s' =>
      if ((n <? 100) && ltb total_time target_time)%bool
      then do_while clock_now seconds f target_time (size_t_succ n) s'
      else Return (size_t_succ n, total_time) s'
  end.
Proof.
  rewrite do_while_equation_1.
  destruct (time_it_body clock_now seconds f s) as [total_time s'|s'];
    [|reflexivity].
  rewrite do_while_clause_1_equation_1.
  destruct (inspect ((n <? 100) && ltb total_time target_time)%bool) as [[] E].
  - rewrite do_while_clause_1_clause_2_equation_1, E. reflexivity.
  - rewrite do_while_clause_1_clause_2_equation_2, E. reflexivity.
Qed.

Lemma time_it_body_spec (f : operation World) (s : State World) :
  match time_it_body clock_now seconds f s with
  | Return total_time s' =>
      exists t, trace s' = (trace s ++ [Invoke; Now t])%list /\ this s' = this s /\
                total_time = seconds (t - start_ (this s))
  | Throw s' => trace s' = (trace s ++ [Invoke])%list /\ this s' = this s
  end.
Proof.
  unfold time_it_body, bind, call, now, get_this, ret.
  destruct (f (world s)) as [[] w]; cbn [this world trace]; [|split; reflexivity].
  destruct (clock_now w) as [t w']; cbn [this world trace].
  exists t. rewrite <- app_assoc. repeat split; reflexivity.
Qed.

Lemma size_t_succ_small (n : Z) : 0 <= n <= 100 -> size_t_succ n = n + 1.
Proof. intros H. unfold size_t_succ. apply Z.mod_small. lia. Qed.

Lemma rounds_cons (t : time_point) (ts : list time_point) :
  rounds (t :: ts) = ([Invoke; Now t] ++ rounds ts)%list.
Proof. reflexivity. Qed.

(** The loop entered with counter [n] runs at most [101 - n] rounds; it
    leaves the object as it found it. *)
Lemma do_while_spec (f : operation World) (target_time : double) (k : nat) :
  forall n s, 0 <= n <= 100 -> (remaining n <= k)%nat ->
  loop_post seconds target_time n s (do_while clock_now seconds f target_time n s).
Proof.
  induction k as [|k IH]; intros n s Hn Hk; rewrite do_while_step;
    pose proof (time_it_body_spec f s) as Hb;
    destruct (time_it_body clock_now seconds f s) as [total s1|s1].
  - destruct Hb as (t & Htr & Hthis & Htot).
    assert (n = 100) by (unfold remaining in Hk; lia). subst n.
    change (100 <? 100) with false. cbn [andb].
    rewrite size_t_succ_small by lia.
    exists [], t. cbn [List.length app]. unfold rounds; cbn [flat_map].
    rewrite app_nil_r. repeat split; auto; lia.
  - destruct Hb as [Htr Hthis]. exists []. cbn [rounds flat_map app List.length].
    repeat split; auto; lia.
  - destruct Hb as (t & Htr & Hthis & Htot).
    rewrite size_t_succ_small by lia.
    destruct ((n <? 100) && ltb total target_time)%bool eqn:E.
    + apply andb_prop in E. destruct E as [E1 E2]. apply Z.ltb_lt in E1.
      assert (Hk' : (remaining (n + 1) <= k)%nat) by (unfold remaining in *; lia).
      specialize (IH (n + 1) s1 ltac:(lia) Hk').
      destruct (do_while clock_now seconds f target_time (n + 1) s1)
        as [[n' total'] s2|s2]; cbn [loop_post] in *.
      * destruct IH as (ts & t' & Htr' & Hthis' & Hn' & Hle & Htot' & Hall & Hexit).
        rewrite Hthis in Hthis', Htot', Hall.
        exists (t :: ts), t'.
        split; [rewrite Htr', Htr, <- app_assoc; reflexivity|].
        split; [exact Hthis'|].
        split; [cbn [List.length]; lia|].
        split; [exact Hle|].
        split; [exact Htot'|].
        split; [|exact Hexit].
        constructor; [rewrite <- Htot; exact E2 | exact Hall].
      * destruct IH as (ts & Htr' & Hthis' & Hle & Hall).
        rewrite Hthis in Hthis', Hall.
        exists (t :: ts).
        split; [rewrite Htr', Htr, <- app_assoc; reflexivity|].
        split; [exact Hthis'|].
        split; [cbn [List.length]; lia|].
        constructor; [rewrite <- Htot; exact E2 | exact Hall].
    + exists [], t. cbn [List.length app]. unfold rounds; cbn [flat_map].
      rewrite app_nil_r. repeat split; auto; try lia.
      apply andb_false_iff in E. destruct E as [E|E].
      * apply Z.ltb_ge in E. left. lia.
      * right. exact E.
  - destruct Hb as [Htr Hthis]. exists []. cbn [rounds flat_map app List.length].
    repeat split; auto; lia.
Qed.

Lemma Timer_eta (self : Timer) :
  mkTimer (title_ self) (time_print_ self) (start_ self) = self.
Proof. destruct self; reflexivity. Qed.

(** The complete behaviour of [time_it]: the clock is read once, then the
    rounds of the loop follow; on return [start_] is back to its old value. *)
Lemma time_it_spec (f : operation World) (target_time : double) (s : State World) :
  match time_it clock_now seconds f target_time s with
  | Return out s' =>
      exists t0 ts t,
        trace s' = (trace s ++ Now t0 :: rounds (ts ++ [t]))%list /\
        this s' = this s /\
        (List.length ts <= 100)%nat /\
        out = ((make_time_str_double
                  (div (seconds (t - t0)) (of_Z (Z.of_nat (List.length ts) + 1)))
                ++ " for ") ++ to_string_size_t (Z.of_nat (List.length ts) + 1))
              ++ " tries" /\
        Forall (fun t' => ltb (seconds (t' - t0)) target_time = true) ts /\
        (List.length ts = 100%nat \/ ltb (seconds (t - t0)) target_time = false)
  | Throw s' =>
      exists t0 ts,
        trace s' = (trace s ++ Now t0 :: rounds ts ++ [Invoke])%list /\
        this s' = mkTimer (title_ (this s)) (time_print_ (this s)) t0 /\
        (List.length ts <= 100)%nat
  end.
Proof.
  unfold time_it, bind, get_this, now, set_start_, ret.
  destruct (clock_now (world s)) as [t0 w0]. cbn [this world trace].
  set (s1 := mkState (mkTimer (title_ (this s)) (time_print_ (this s)) t0) w0
                     (trace s ++ [Now t0])).
  assert (Hrem : (remaining 0 <= 100)%nat) by (vm_compute; lia).
  pose proof (do_while_spec f target_time 100 0 s1 ltac:(lia) Hrem) as Hloop.
  destruct (do_while clock_now seconds f target_time 0 s1) as [[n total] s2|s2];
    cbn [loop_post] in Hloop.
  - destruct Hloop as (ts & t & Htr & Hthis & Hn & Hle & Htot & Hall & Hexit).
    cbn [this world trace start_ title_ time_print_ s1] in *.
    exists t0, ts, t.
    split; [rewrite Htr, <- app_assoc; reflexivity|].
    split; [rewrite Hthis; cbn [title_ time_print_]; apply Timer_eta|].
    split; [lia|].
    split; [subst n total; reflexivity|].
    split; [exact Hall|].
    destruct Hexit as [Hexit|Hexit]; [left; lia | right; congruence].
  - destruct Hloop as (ts & Htr & Hthis & Hle & Hall).
    cbn [this world trace s1] in *.
    exists t0, ts.
    split; [rewrite Htr, <- app_assoc; reflexivity|].
    split; [exact Hthis | lia].
Qed.

Lemma invocations_app (a b : list event) :
  invocations (a ++ b) = (invocations a + invocations b)%nat.
Proof. unfold invocations. now rewrite filter_app, length_app. Qed.

Lemma invocations_rounds (ts : list time_point) :
  invocations (rounds ts) = List.length ts.
Proof.
  induction ts as [|t ts IH]; [reflexivity|].
  rewrite rounds_cons, invocations_app, IH. reflexivity.
Qed.

(** X1: one call of [time_it] invokes the operation at least once and at most
    101 times, whether it returns or the operation throws. *)
Lemma time_it_invocations (f : operation World) (target_time : double)
      (s : State World) :
  let n := (invocations (trace (final (time_it clock_now seconds f target_time s)))
            - invocations (trace s))%nat in
  (1 <= n <= 101)%nat.
Proof.
  pose proof (time_it_spec f target_time s) as H.
  destruct (time_it clock_now seconds f target_time s) as [out s'|s']; cbn [final].
  - destruct H as (t0 & ts & t & Htr & _ & Hle & _).
    rewrite Htr, invocations_app.
    change (Now t0 :: rounds (ts ++ [t])) with ([Now t0] ++ rounds (ts ++ [t]))%list.
    rewrite invocations_app, invocations_rounds, length_app.
    cbn [invocations filter List.length]. lia.
  - destruct H as (t0 & ts & Htr & _ & Hle).
    rewrite Htr, invocations_app.
    change (Now t0 :: rounds ts ++ [Invoke])
      with ([Now t0] ++ rounds ts ++ [Invoke])%list.
    rewrite !invocations_app, invocations_rounds.
    cbn [invocations filter List.length]. lia.
Qed.

Lemma to_string_spec (s : State World) :
  to_string clock_now seconds s =
  let '(stop, w) := clock_now (world s) in
  Return (time_print_ (this s) (title_ (this s))
            (make_time_str_double (seconds (stop - start_ (this s)))))
         (mkState (this s) w (trace s ++ [Now stop])).
Proof.
  unfold to_string, make_time_str, bind, now, get_this, ret.
  destruct (clock_now (world s)) as [stop w]. reflexivity.
Qed.

(** C4: whatever the operation and the target, zero and negative targets
    included, [time_it] invokes the operation at least once. *)
Theorem time_it_invokes_at_least_once (f : operation World) (target_time : double)
        (s : State World) :
  (invocations (trace s) + 1 <=
   invocations (trace (final (time_it clock_now seconds f target_time s))))%nat.
Proof.
  pose proof (time_it_spec f target_time s) as H.
  destruct (time_it clock_now seconds f target_time s) as [out s'|s']; cbn [final].
  - destruct H as (t0 & ts & t & Htr & _).
    rewrite Htr, invocations_app.
    change (Now t0 :: rounds (ts ++ [t])) with ([Now t0] ++ rounds (ts ++ [t]))%list.
    rewrite invocations_app, invocations_rounds, length_app.
    cbn [List.length]. lia.
  - destruct H as (t0 & ts & Htr & _).
    rewrite Htr, invocations_app.
    change (Now t0 :: rounds ts ++ [Invoke])
      with ([Now t0] ++ rounds ts ++ [Invoke])%list.
    rewrite !invocations_app.
    cbn [invocations filter List.length]. lia.
Qed.

(** C5: when [time_it] returns, [start_] has the value it had before the
    call, so that a following [to_string] measures from the old starting
    point; and [make_time_str], [to_string], the stream inserter and the
    printing destructor leave the object unchanged. *)
Theorem time_it_restores_start_ :
  (forall f target_time s out s',
      time_it clock_now seconds f target_time s = Return out s' ->
      start_ (this s') = start_ (this s) /\
      forall stop w, clock_now (world s') = (stop, w) ->
        exists s'',
          to_string clock_now seconds s' =
          Return (time_print_ (this s) (title_ (this s))
                    (make_time_str_double (seconds (stop - start_ (this s))))) s'') /\
  (forall s, this (final (make_time_str clock_now seconds s)) = this s) /\
  (forall s, this (final (to_string clock_now seconds s)) = this s) /\
  (forall os s, this (final (insert_timer clock_now seconds os s)) = this s) /\
  (forall cout s, this (final (AutoTimer_destroy clock_now seconds cout s)) = this s).
Proof.
  split; [|repeat split].
  - intros f target_time s out s' Hrun.
    pose proof (time_it_spec f target_time s) as H. rewrite Hrun in H.
    destruct H as (t0 & ts & t & _ & Hthis & _).
    split; [now rewrite Hthis|].
    intros stop w Hclock. rewrite to_string_spec, Hclock, Hthis. eexists. reflexivity.
  - intros s. unfold make_time_str, bind, now, get_this, ret.
    destruct (clock_now (world s)); reflexivity.
  - intros s. rewrite to_string_spec. destruct (clock_now (world s)); reflexivity.
  - intros os s. unfold insert_timer, bind, ret. rewrite to_string_spec.
    destruct (clock_now (world s)); reflexivity.
  - intros cout s. unfold AutoTimer_destroy, bind, ret. rewrite to_string_spec.
    destruct (clock_now (world s)); reflexivity.
Qed.

(** C6: the string returned by [time_it] is the formatted quotient of the
    total elapsed time (from the fresh starting point to the last reading of
    the clock) by the number of rounds, then " for ", that number in
    decimal, and " tries"; the number is the number of invocations. *)
Theorem time_it_result (f : operation World) (target_time : double)
        (s s' : State World) (out : string) :
  time_it clock_now seconds f target_time s = Return out s' ->
  exists t0 ts t,
    trace s' = (trace s ++ Now t0 :: rounds (ts ++ [t]))%list /\
    let n := Z.of_nat (invocations (trace s') - invocations (trace s)) in
    n = Z.of_nat (List.length (ts ++ [t])) /\
    out = ((make_time_str_double (div (seconds (t - t0)) (of_Z n)) ++ " for ")
           ++ to_string_size_t n) ++ " tries".
Proof.
  intros Hrun. pose proof (time_it_spec f target_time s) as H. rewrite Hrun in H.
  destruct H as (t0 & ts & t & Htr & _ & _ & Hout & _).
  exists t0, ts, t. split; [exact Htr|].
  assert (Hn : (invocations (trace s') - invocations (trace s))%nat
               = List.length (ts ++ [t])).
  { rewrite Htr, invocations_app.
    change (Now t0 :: rounds (ts ++ [t])) with ([Now t0] ++ rounds (ts ++ [t]))%list.
    rewrite invocations_app, invocations_rounds.
    cbn [invocations filter List.length]. lia. }
  cbv zeta. rewrite Hn. split; [reflexivity|].
  rewrite Hout, length_app. cbn [List.length].
  replace (Z.of_nat (List.length ts + 1)) with (Z.of_nat (List.length ts) + 1) by lia.
  reflexivity.
Qed.

(** C7, amended: inserting a [Timer] into a stream hands the string that
    [to_string] returns to the stream's string inserter.  On a good stream whose
    field width is not larger than the length of that string (width 0 after
    construction and after any formatted insertion) exactly the characters of
    the string are appended; with a larger width the string is padded with
    fill characters to that width, and the width is reset; on a stream that is
    not good nothing is written. *)
Theorem insert_timer_writes_padded_to_string (os : ostream) (s : State World) :
  exists str s' os',
    to_string clock_now seconds s = Return str s' /\
    insert_timer clock_now seconds os s = Return os' s' /\
    (good os = true -> width os <= Z.of_nat (String.length str) ->
     written os' = written os ++ str) /\
    (good os = true ->
     written os' = written os ++ pad os str /\
     Z.of_nat (String.length (pad os str))
     = Z.max (width os) (Z.of_nat (String.length str)) /\
     width os' = 0) /\
    (good os = false -> os' = os).
Proof.
  unfold insert_timer, bind, ret. rewrite to_string_spec.
  destruct (clock_now (world s)) as [stop w].
  eexists. eexists. eexists.
  split; [reflexivity|]. split; [reflexivity|].
  unfold insert_string. split; [|split].
  - intros Hgood Hw. rewrite Hgood. cbn [written].
    rewrite pad_no_width by exact Hw. reflexivity.
  - intros Hgood. rewrite Hgood. cbn [written width].
    split; [reflexivity|]. split; [apply pad_length | reflexivity].
  - intros Hgood. rewrite Hgood. reflexivity.
Qed.

(** C8: [Simple] returns the title, a colon and a space, and the time; a
    [Timer] titled "X" printing with [Simple] whose elapsed time is exactly
    2.5 seconds renders as "X: 2.5 s". *)
Theorem Simple_format :
  (forall L T : string, Simple L T = L ++ ": " ++ T) /\
  (forall s stop w,
      title_ (this s) = "X" -> time_print_ (this s) = Simple ->
      clock_now (world s) = (stop, w) ->
      seconds (stop - start_ (this s)) = lit_2_5 ->
      exists s', to_string clock_now seconds s = Return "X: 2.5 s" s').
Proof.
  split.
  - intros L T. unfold Simple. apply append_assoc.
  - intros s stop w Htitle Hprint Hclock Helapsed.
    rewrite to_string_spec, Hclock, Htitle, Hprint, Helapsed.
    eexists. reflexivity.
Qed.

End MachineFacts.

(** ** The print functions *)

Lemma no_newline_append (a b : string) :
  no_newline (a ++ b) = (no_newline a && no_newline b)%bool.
Proof.
  induction a as [|c a IH]; cbn [append no_newline]; [reflexivity|].
  rewrite IH. apply andb_assoc.
Qed.

Lemma no_newline_dashes (n : nat) : no_newline (dashes n) = true.
Proof. induction n as [|n IH]; [reflexivity | exact IH]. Qed.

Lemma lines_no_newline (a : string) : no_newline a = true -> lines a = [a].
Proof.
  induction a as [|c a IH]; cbn [no_newline lines]; [reflexivity|].
  intros H. apply andb_prop in H. destruct H as [Hc Ha].
  apply negb_true_iff in Hc. rewrite Hc, (IH Ha). reflexivity.
Qed.

Lemma lines_append_nl (a b : string) :
  no_newline a = true -> lines (a ++ nl ++ b) = a :: lines b.
Proof.
  induction a as [|c a IH]; cbn [no_newline append lines]; [reflexivity|].
  intros H. apply andb_prop in H. destruct H as [Hc Ha].
  apply negb_true_iff in Hc. rewrite Hc, (IH Ha). reflexivity.
Qed.

(** C9: [Big] returns three lines: a border of 41 dashes, the line
    "| title | Time = time", and the same border again. *)
Theorem Big_format (L T : string) :
  Big L T = dashes 41 ++ nl ++ ("| " ++ L ++ " | Time = " ++ T) ++ nl ++ dashes 41 /\
  String.length (dashes 41) = 41%nat /\
  (no_newline L = true -> no_newline T = true ->
   lines (Big L T) = [dashes 41; "| " ++ L ++ " | Time = " ++ T; dashes 41]).
Proof.
  assert (Hshape : Big L T
            = dashes 41 ++ nl ++ ("| " ++ L ++ " | Time = " ++ T) ++ nl ++ dashes 41).
  { unfold Big. rewrite !append_assoc. reflexivity. }
  split; [exact Hshape|]. split; [reflexivity|].
  intros HL HT. rewrite Hshape.
  rewrite lines_append_nl by apply no_newline_dashes.
  rewrite lines_append_nl.
  - rewrite lines_no_newline by apply no_newline_dashes. reflexivity.
  - rewrite !no_newline_append, HL, HT. reflexivity.
Qed.

Lemma Big_format_witness :
  lines (Big "X" "2.5 s") = [dashes 41; "| X | Time = 2.5 s"; dashes 41].
Proof. apply (proj2 (proj2 (Big_format "X" "2.5 s"))); reflexivity. Defined.

(** ** Instances *)

(** C3: with an operation that costs one millisecond per call and the default
    target of one second, [time_it] invokes the operation 101 times, one more
    than the bound of 100 in the loop condition suggests, and reports so. *)
Theorem time_it_runs_101_times :
  let s := Timer_new (ticking 1000000) "Timer" Simple 0 in
  let r := time_it (ticking 1000000) nano_seconds noop lit_1 s in
  (exists s', r = Return "1 ms for 101 tries" s') /\
  (invocations (trace (final r)) - invocations (trace s) = 101)%nat.
Proof.
  cbv zeta. split.
  - eexists. vm_compute. reflexivity.
  - vm_compute. reflexivity.
Qed.

(** An operation that throws leaves [start_] at the fresh starting point: the
    exception passes through [time_it] and the restoring assignment is skipped. *)
Example time_it_throw_keeps_fresh_start :
  let s := mkState (mkTimer "Timer" Simple 0) 5000 [] in
  let r := time_it (ticking 1000) nano_seconds failing lit_1 s in
  r = Throw (final r) /\ start_ (this (final r)) = 5000 /\
  invocations (trace (final r)) = 1%nat.
Proof. cbv zeta. split; [|split]; vm_compute; reflexivity. Qed.

(** A target of zero, a negative target and a target that is not a number all
    give exactly one round. *)
Example time_it_small_targets :
  let s := Timer_new (ticking 1000000) "Timer" Simple 0 in
  let run target := time_it (ticking 1000000) nano_seconds noop target s in
  (exists s', run (S754_zero false) = Return "1 ms for 1 tries" s') /\
  (exists s', run (of_Z (-1)) = Return "1 ms for 1 tries" s') /\
  (exists s', run S754_nan = Return "1 ms for 1 tries" s').
Proof. cbv zeta. split; [|split]; eexists; vm_compute; reflexivity. Qed.

Lemma make_time_str_double_units_witness :
  make_time_str_double (div (of_Z 1) (of_Z 2000000)) = "500 ns" /\
  make_time_str_double (div (of_Z 1) (of_Z 40000)) = "25 us" /\
  make_time_str_double (div (of_Z 1) (of_Z 4)) = "250 ms" /\
  make_time_str_double lit_2_5 = "2.5 s".
Proof.
  split; [|split; [|split]].
  - destruct (make_time_str_double_units (div (of_Z 1) (of_Z 2000000)) eq_refl)
      as (H & _). rewrite H; reflexivity.
  - destruct (make_time_str_double_units (div (of_Z 1) (of_Z 40000)) eq_refl)
      as (_ & H & _). rewrite H; reflexivity.
  - destruct (make_time_str_double_units (div (of_Z 1) (of_Z 4)) eq_refl)
      as (_ & _ & H & _). rewrite H; reflexivity.
  - destruct (make_time_str_double_units lit_2_5 eq_refl) as (_ & _ & _ & H).
    rewrite H; reflexivity.
Defined.

Lemma make_time_str_double_below_threshold_witness :
  make_time_str_double (div (of_Z (-5)) (of_Z 2)) = "-2.5e+09 ns".
Proof.
  destruct (make_time_str_double_below_threshold (div (of_Z (-5)) (of_Z 2)) eq_refl)
    as [_ H].
  rewrite H; [reflexivity | right; reflexivity].
Defined.

Lemma time_it_restores_start__witness :
  let s := Timer_new (ticking 1000000) "Timer" Simple 0 in
  start_ (this (final (time_it (ticking 1000000) nano_seconds noop lit_1 s))) = 0.
Proof.
  cbv zeta.
  pose (s := Timer_new (ticking 1000000) "Timer" Simple 0).
  pose (s' := final (time_it (ticking 1000000) nano_seconds noop lit_1 s)).
  destruct (proj1 (time_it_restores_start_ (ticking 1000000) nano_seconds)
              noop lit_1 s "1 ms for 101 tries" s') as [H _].
  - vm_compute. reflexivity.
  - exact H.
Defined.

Lemma time_it_result_witness :
  let s := Timer_new (ticking 123456789) "Timer" Simple 0 in
  let s' := final (time_it (ticking 123456789) nano_seconds noop lit_1 s) in
  (invocations (trace s') - invocations (trace s) = 9)%nat /\
  exists t0 ts t,
    trace s' = (trace s ++ Now t0 :: rounds (ts ++ [t]))%list /\
    let n := Z.of_nat (invocations (trace s') - invocations (trace s)) in
    n = Z.of_nat (List.length (ts ++ [t])) /\
    "123.46 ms for 9 tries"
    = ((make_time_str_double (div (nano_seconds (t - t0)) (of_Z n)) ++ " for ")
       ++ to_string_size_t n) ++ " tries".
Proof.
  cbv zeta. split; [vm_compute; reflexivity|].
  apply (time_it_result (ticking 123456789) nano_seconds noop lit_1).
  vm_compute. reflexivity.
Defined.

Lemma Simple_format_witness :
  exists s',
    to_string (ticking 0) nano_seconds
      (mkState (mkTimer "X" Simple 1000) 2500001000 []) = Return "X: 2.5 s" s'.
Proof.
  apply (proj2 (Simple_format (ticking 0) nano_seconds)
           (mkState (mkTimer "X" Simple 1000) 2500001000 []) 2500001000 2500001000);
    reflexivity.
Defined.

(** * Further properties of the calibration loop and of the life cycle *)

Section MachineExtras.

Context {World : Type}.
Variable clock_now : World -> time_point * World.
Variable seconds : Z -> double.

(** The rounds of [time_it], with the clock reading taken on entry made
    explicit and the rounds before an exception described as well. *)
Lemma time_it_rounds (f : operation World) (target_time : double) (s : State World) :
  let t0 := fst (clock_now (world s)) in
  match time_it clock_now seconds f target_time s with
  | Return out s' =>
      exists ts t,
        trace s' = (trace s ++ Now t0 :: rounds (ts ++ [t]))%list /\
        Forall (fun t' => ltb (seconds (t' - t0)) target_time = true) ts /\
        (ltb (seconds (t - t0)) target_time = false \/ List.length ts = 100%nat)
  | Throw s' =>
      exists ts,
        trace s' = (trace s ++ Now t0 :: rounds ts ++ [Invoke])%list /\
        this s' = mkTimer (title_ (this s)) (time_print_ (this s)) t0 /\
        (List.length ts <= 100)%nat /\
        Forall (fun t' => ltb (seconds (t' - t0)) target_time = true) ts
  end.
Proof.
  unfold time_it, bind, get_this, now, set_start_, ret.
  destruct (clock_now (world s)) as [t0 w0]. cbn [this world trace fst].
  set (s1 := mkState (mkTimer (title_ (this s)) (time_print_ (this s)) t0) w0
                     (trace s ++ [Now t0])).
  assert (Hrem : (remaining 0 <= 100)%nat) by (vm_compute; lia).
  pose proof (do_while_spec clock_now seconds f target_time 100 0 s1 ltac:(lia) Hrem)
    as Hloop.
  destruct (do_while clock_now seconds f target_time 0 s1) as [[n total] s2|s2];
    cbn [loop_post] in Hloop.
  - destruct Hloop as (ts & t & Htr & _ & Hn & _ & Htot & Hall & Hexit).
    cbn [this trace start_ s1] in *.
    exists ts, t.
    split; [rewrite Htr, <- app_assoc; reflexivity|].
    split; [exact Hall|].
    destruct Hexit as [Hexit|Hexit]; [right; lia | left; congruence].
  - destruct Hloop as (ts & Htr & Hthis & Hle & Hall).
    cbn [this trace start_ s1] in *.
    exists ts.
    split; [rewrite Htr, <- app_assoc; reflexivity|].
    split; [exact Hthis|]. split; [lia | exact Hall].
Qed.

(** X2: [time_it] stops at the first round whose elapsed time, measured from
    the clock reading taken on entry, is not below the target, or after the
    101st round: every earlier round was below the target, and the clock is
    read once on entry and once after each invocation. *)
Theorem time_it_stops_at_first_round_reaching_target (f : operation World)
        (target_time : double) (s s' : State World) (out : string) :
  time_it clock_now seconds f target_time s = Return out s' ->
  let t0 := fst (clock_now (world s)) in
  exists ts t,
    trace s' = (trace s ++ Now t0 :: rounds (ts ++ [t]))%list /\
    Forall (fun t' => ltb (seconds (t' - t0)) target_time = true) ts /\
    (ltb (seconds (t - t0)) target_time = false \/ List.length ts = 100%nat).
Proof.
  intros Hrun t0.
  pose proof (time_it_rounds f target_time s) as H. cbv zeta in H.
  rewrite Hrun in H. exact H.
Qed.

(** X3: when the operation throws, [time_it] lets the exception through after
    at most 100 completed rounds; the title and the print function are
    untouched, but [start_] is left at the clock reading taken on entry, so a
    later [to_string] measures from there and not from the old start. *)
Theorem time_it_throw_leaves_fresh_start (f : operation World)
        (target_time : double) (s s' : State World) :
  time_it clock_now seconds f target_time s = Throw s' ->
  let t0 := fst (clock_now (world s)) in
  this s' = mkTimer (title_ (this s)) (time_print_ (this s)) t0 /\
  (exists ts, trace s' = (trace s ++ Now t0 :: rounds ts ++ [Invoke])%list /\
              (List.length ts <= 100)%nat) /\
  (forall stop w, clock_now (world s') = (stop, w) ->
     exists s'',
       to_string clock_now seconds s' =
       Return (time_print_ (this s) (title_ (this s))
                 (make_time_str_double (seconds (stop - t0)))) s'').
Proof.
  intros Hrun t0.
  pose proof (time_it_rounds f target_time s) as H. cbv zeta in H.
  rewrite Hrun in H. destruct H as (ts & Htr & Hthis & Hle & _).
  split; [exact Hthis|]. split; [exists ts; split; assumption|].
  intros stop w Hclock. rewrite to_string_spec, Hclock, Hthis. eexists. reflexivity.
Qed.

Lemma time_it_body_returns (f : operation World) (s : State World) :
  fst (f (world s)) = Normal ->
  exists total s', time_it_body clock_now seconds f s = Return total s'.
Proof.
  intros Hf. unfold time_it_body, bind, call, now, get_this, ret.
  destruct (f (world s)) as [[] w]; cbn [fst] in Hf; [|discriminate].
  cbn [world]. destruct (clock_now w) as [t w']. eexists. eexists. reflexivity.
Qed.

Lemma do_while_returns (f : operation World) (target_time : double) :
  (forall w, fst (f w) = Normal) ->
  forall (k : nat) n s, 0 <= n <= 100 -> (remaining n <= k)%nat ->
  exists r s', do_while clock_now seconds f target_time n s = Return r s'.
Proof.
  intros Hf. induction k as [|k IH]; intros n s Hn Hk; rewrite do_while_step;
    destruct (time_it_body_returns f s (Hf _)) as (total & s1 & ->).
  - assert (n = 100) by (unfold remaining in Hk; lia). subst n.
    change (100 <? 100) with false. cbn [andb]. eexists. eexists. reflexivity.
  - destruct ((n <? 100) && ltb total target_time)%bool eqn:E.
    + apply andb_prop in E. destruct E as [E _]. apply Z.ltb_lt in E.
      rewrite size_t_succ_small by lia. apply IH; [lia|].
      unfold remaining in *. lia.
    + eexists. eexists. reflexivity.
Qed.

(** X4: [time_it] fails only through the operation: when the operation never
    throws, [time_it] returns its report. *)
Theorem time_it_returns_when_operation_does (f : operation World)
        (target_time : double) (s : State World) :
  (forall w, fst (f w) = Normal) ->
  exists out s', time_it clock_now seconds f target_time s = Return out s'.
Proof.
  intros Hf. unfold time_it, bind, get_this, now, set_start_, ret.
  destruct (clock_now (world s)) as [t0 w0]. cbn [this world trace].
  match goal with
  | |- context [do_while clock_now seconds f target_time 0 ?s1] =>
      destruct (do_while_returns f target_time Hf 100 0 s1 ltac:(lia)
                  ltac:(vm_compute; lia)) as ([n total] & s2 & ->)
  end.
  eexists. eexists. reflexivity.
Qed.

(** X5: a timer rendered with [to_string] reports the time between the clock
    reading of its constructor and the reading of [to_string], under its title
    and through its print function; with the default arguments the text is
    "Timer: " followed by the formatted time. *)
Theorem to_string_after_construction (title : string) (time_print : time_print_t)
        (w : World) :
  let t0 := fst (clock_now w) in
  let t1 := fst (clock_now (snd (clock_now w))) in
  let time := make_time_str_double (seconds (t1 - t0)) in
  (exists s', to_string clock_now seconds (Timer_new clock_now title time_print w)
              = Return (time_print title time) s') /\
  (exists s', to_string clock_now seconds (Timer_default clock_now w)
              = Return ("Timer: " ++ time) s').
Proof.
  cbv zeta. unfold Timer_default, Timer_new. split.
  - destruct (clock_now w) as [t0 w1]. rewrite to_string_spec. cbn [this world fst snd].
    destruct (clock_now w1) as [t1 w2]. cbn [fst title_ time_print_ start_].
    eexists. reflexivity.
  - destruct (clock_now w) as [t0 w1]. rewrite to_string_spec. cbn [this world fst snd].
    destruct (clock_now w1) as [t1 w2]. cbn [fst title_ time_print_ start_].
    eexists. reflexivity.
Qed.

(** X6: destroying an [AutoTimer] that was just constructed, with a stream that
    is good, writes the rendering of the time between the two clock readings,
    padded as the stream's field width asks, and then one line feed, which is
    never padded; when the width is not larger than the rendering (width 0 by
    default) the line is the rendering itself.  On a stream that is not good
    nothing is written. *)
Theorem AutoTimer_destroy_writes_line (cout : ostream) (title : string)
        (time_print : time_print_t) (w : World) :
  let t0 := fst (clock_now w) in
  let t1 := fst (clock_now (snd (clock_now w))) in
  let text := time_print title (make_time_str_double (seconds (t1 - t0))) in
  exists os s',
    AutoTimer_destroy clock_now seconds cout
      (AutoTimer_new clock_now title time_print w) = Return os s' /\
    (good cout = true ->
     written os = ((written cout ++ pad cout text) ++ nl)%string /\ width os = 0) /\
    (good cout = true -> width cout <= Z.of_nat (String.length text) ->
     written os = ((written cout ++ text) ++ nl)%string) /\
    (good cout = false -> os = cout).
Proof.
  cbv zeta. unfold AutoTimer_destroy, AutoTimer_new, Timer_new, bind, ret.
  destruct (clock_now w) as [t0 w1]. rewrite to_string_spec. cbn [this world fst snd].
  destruct (clock_now w1) as [t1 w2]. cbn [fst title_ time_print_ start_].
  eexists. eexists. split; [reflexivity|].
  unfold endl, put, insert_string. split; [|split].
  - intros Hgood. rewrite Hgood. cbn [good written width]. split; reflexivity.
  - intros Hgood Hw. rewrite Hgood. cbn [good written].
    rewrite pad_no_width by exact Hw. reflexivity.
  - intros Hgood. rewrite !Hgood. reflexivity.
Qed.

(** X8: a target that no duration is below (a NaN, or minus infinity) gives
    exactly one invocation, whatever the operation and the clock do. *)
Theorem time_it_unreachable_target_one_round (f : operation World)
        (target_time : double) (s : State World) :
  (forall x, ltb x target_time = false) ->
  invocations (trace (final (time_it clock_now seconds f target_time s)))
  = (invocations (trace s) + 1)%nat.
Proof.
  intros Hnever.
  assert (Hnil : forall t0 (ts : list time_point),
             Forall (fun t' => ltb (seconds (t' - t0)) target_time = true) ts ->
             ts = []).
  { intros t0 [|t ts] Hall; [reflexivity|].
    inversion Hall as [|? ? Hhd _]. rewrite Hnever in Hhd. discriminate. }
  pose proof (time_it_rounds f target_time s) as H. cbv zeta in H.
  destruct (time_it clock_now seconds f target_time s) as [out s'|s']; cbn [final].
  - destruct H as (ts & t & Htr & Hall & _).
    rewrite (Hnil _ _ Hall) in Htr. rewrite Htr, invocations_app. reflexivity.
  - destruct H as (ts & Htr & _ & _ & Hall).
    rewrite (Hnil _ _ Hall) in Htr. rewrite Htr, invocations_app. reflexivity.
Qed.

End MachineExtras.

(** X7: the 50-character buffer of [print_it] is never filled: for a valid
    double each of the four values that [make_time_str(double)] may print
    converts to at most 14 characters, all of which are stored, and the whole
    result has at most 17 characters. *)
Theorem make_time_str_double_fits_buffer (d : double) :
  valid d = true ->
  (forall x, In x [mul d lit_1000000000; mul d lit_1000000; mul d lit_1000; d] ->
     snprintf_g 50 5 x = format_g 5 x /\ (String.length (format_g 5 x) <= 14)%nat) /\
  (String.length (make_time_str_double d) <= 17)%nat.
Proof.
  intros Hv.
  assert (Hin : forall x,
             In x [mul d lit_1000000000; mul d lit_1000000; mul d lit_1000; d] ->
             in_range x).
  { intros x [<-|[<-|[<-|[<-|[]]]]];
      try apply mul_in_range. apply valid_in_range, Hv. }
  split.
  - intros x Hx. split; [apply snprintf_g_exact | apply format_g_length]; auto.
  - pose proof (valid_in_range d Hv) as Hd. unfold make_time_str_double.
    destruct (ltb d lit_000001); [|destruct (ltb d lit_001); [|destruct (ltb d lit_1)]].
    + pose proof (mul_in_range d lit_1000000000) as Hx.
      rewrite (print_it_exact _ _ Hx), !length_append.
      pose proof (format_g_length _ Hx). cbn [String.length]. lia.
    + pose proof (mul_in_range d lit_1000000) as Hx.
      rewrite (print_it_exact _ _ Hx), !length_append.
      pose proof (format_g_length _ Hx). cbn [String.length]. lia.
    + pose proof (mul_in_range d lit_1000) as Hx.
      rewrite (print_it_exact _ _ Hx), !length_append.
      pose proof (format_g_length _ Hx). cbn [String.length]. lia.
    + rewrite (print_it_exact _ _ Hd), !length_append.
      pose proof (format_g_length _ Hd). cbn [String.length]. lia.
Qed.

Lemma make_time_str_double_fits_buffer_witness :
  (String.length (make_time_str_double (div (of_Z (-1234567)) (of_Z 1000))) <= 17)%nat.
Proof.
  apply (proj2 (make_time_str_double_fits_buffer
                  (div (of_Z (-1234567)) (of_Z 1000)) eq_refl)).
Defined.

Lemma time_it_stops_at_first_round_reaching_target_witness :
  let s := Timer_new (ticking 123456789) "Timer" Simple 0 in
  let s' := final (time_it (ticking 123456789) nano_seconds noop lit_1 s) in
  let t0 := fst (ticking 123456789 (world s)) in
  exists ts t,
    trace s' = (trace s ++ Now t0 :: rounds (ts ++ [t]))%list /\
    Forall (fun t' => ltb (nano_seconds (t' - t0)) lit_1 = true) ts /\
    (ltb (nano_seconds (t - t0)) lit_1 = false \/ List.length ts = 100%nat).
Proof.
  cbv zeta.
  apply (time_it_stops_at_first_round_reaching_target (ticking 123456789) nano_seconds
           noop lit_1 _ _ "123.46 ms for 9 tries").
  vm_compute. reflexivity.
Defined.

Lemma time_it_throw_leaves_fresh_start_witness :
  let s := mkState (mkTimer "Timer" Simple 0) 5000 [] in
  this (final (time_it (ticking 1000) nano_seconds failing lit_1 s))
  = mkTimer "Timer" Simple 5000.
Proof.
  cbv zeta.
  pose (s := mkState (mkTimer "Timer" Simple 0) 5000 []).
  pose (s' := final (time_it (ticking 1000) nano_seconds failing lit_1 s)).
  assert (Hrun : time_it (ticking 1000) nano_seconds failing lit_1 s = Throw s')
    by (vm_compute; reflexivity).
  destruct (time_it_throw_leaves_fresh_start (ticking 1000) nano_seconds
              failing lit_1 s s' Hrun) as [H _].
  exact H.
Defined.

Lemma time_it_returns_when_operation_does_witness :
  exists out s',
    time_it (ticking 1000000) nano_seconds noop lit_1
      (Timer_new (ticking 1000000) "Timer" Simple 0) = Return out s'.
Proof.
  apply (time_it_returns_when_operation_does (ticking 1000000) nano_seconds noop).
  intros w. reflexivity.
Defined.

Lemma time_it_unreachable_target_one_round_witness :
  let s := Timer_new (ticking 1000000) "Timer" Simple 0 in
  invocations (trace (final (time_it (ticking 1000000) nano_seconds noop S754_nan s)))
  = (invocations (trace s) + 1)%nat.
Proof.
  cbv zeta.
  apply (time_it_unreachable_target_one_round (ticking 1000000) nano_seconds noop).
  intros x. destruct x; reflexivity.
Defined.

(** C7 as first stated fails on a stream with a pending field width: after
    [os << std::setw(12)] the insertion of a timer whose rendering is
    "X: 2.5 s" writes that text padded to twelve characters; and on a stream
    that is not good it writes nothing. *)
Lemma insert_timer_padded_counterexample :
  exists s',
    to_string (ticking 0) nano_seconds timer_X_2_5 = Return "X: 2.5 s" s' /\
    (exists os, insert_timer (ticking 0) nano_seconds wide_ostream timer_X_2_5
                = Return os s' /\
                written os = "    X: 2.5 s" /\
                written os <> written wide_ostream ++ "X: 2.5 s") /\
    (exists os, insert_timer (ticking 0) nano_seconds failed_ostream timer_X_2_5
                = Return os s' /\
                written os = "" /\
                written os <> written failed_ostream ++ "X: 2.5 s").
Proof.
  eexists. split; [vm_compute; reflexivity|]. split.
  - eexists. split; [vm_compute; reflexivity|]. split; [reflexivity|].
    vm_compute. discriminate.
  - eexists. split; [vm_compute; reflexivity|]. split; [reflexivity|].
    vm_compute. discriminate.
Qed.

Lemma insert_timer_writes_padded_to_string_witness :
  let s := mkState (mkTimer "X" Simple 1000) 2500001000 [] in
  exists str s' os',
    to_string (ticking 0) nano_seconds s = Return str s' /\
    insert_timer (ticking 0) nano_seconds fresh_ostream s = Return os' s' /\
    written os' = written fresh_ostream ++ str.
Proof.
  cbv zeta.
  destruct (insert_timer_writes_padded_to_string (ticking 0) nano_seconds fresh_ostream
              (mkState (mkTimer "X" Simple 1000) 2500001000 []))
    as (str & s' & os' & Hstr & Hins & Hplain & _).
  exists str, s', os'. split; [exact Hstr|]. split; [exact Hins|].
  apply Hplain; [reflexivity|].
  change (width fresh_ostream) with 0. lia.
Defined.

Lemma AutoTimer_destroy_writes_line_witness :
  exists os s',
    AutoTimer_destroy (ticking 2500000000) nano_seconds fresh_ostream
      (AutoTimer_new (ticking 2500000000) "X" Simple 0) = Return os s' /\
    written os = ("X: 2.5 s" ++ nl)%string.
Proof.
  destruct (AutoTimer_destroy_writes_line (ticking 2500000000) nano_seconds
              fresh_ostream "X" Simple 0) as (os & s' & Hrun & _ & Hplain & _).
  exists os, s'. split; [exact Hrun|].
  apply Hplain; [reflexivity|]. vm_compute. discriminate.
Defined.
